(** * compchem-class: the [Vector] class and the hand-written bond and angle energies

    The repository holds two teaching notebooks.  The first defines a small
    [Vector] class over a Python list of floats with overloaded arithmetic;
    the second recomputes the harmonic bond and angle energies of a water
    molecule with numpy and compares them with OpenMM.

    The [Vector] class is embedded once, generically over the scalar
    arithmetic, and instantiated twice: at [R], the real numbers the
    specification speaks of, and at [float], the IEEE-754 binary64 numbers
    Python runs on.  The numpy geometry is embedded over [R]. *)

From Stdlib Require Import Floats ZArith List String Bool Lia.
From Stdlib Require Import Reals Lra.
Import ListNotations.

Set Implicit Arguments.

(** ** Python outcomes *)

(** The exceptions the embedded code can raise. *)
Inductive exn : Type :=
| NameError (name : string)   (* a global name that no cell binds *)
| ZeroDivisionError           (* float division by zero *)
| ValueError                  (* tuple unpacking of the wrong length *)
| IndexError.                 (* sequence index out of range *)

(** A call either returns a value or raises. *)
Inductive result (A : Type) : Type :=
| Ok (a : A)
| Raise (e : exn).
Arguments Ok {A} a.
Arguments Raise {A} e.

Definition bind {A B : Type} (r : result A) (k : A -> result B) : result B :=
  match r with
  | Ok a => k a
  | Raise e => Raise e
  end.

Notation "x <- r ;; k" := (bind r (fun x => k))
  (at level 61, r at next level, right associativity).

(** A list comprehension [[f x for x in l]]: elements are computed left to
    right and the first exception aborts the whole comprehension. *)
Fixpoint comprehension {A B : Type} (f : A -> result B) (l : list A)
  : result (list B) :=
  match l with
  | [] => Ok []
  | a :: l' => b <- f a ;; bs <- comprehension f l' ;; Ok (b :: bs)
  end.

(** ** Scalars *)

(** What the [Vector] class asks of its elements: the four arithmetic
    operators and the zero test that decides whether [/] raises. *)
Class Scalar (T : Type) : Type := {
  zero : T;                    (* the [0] that the builtin [sum] starts from *)
  add : T -> T -> T;           (* [x + y] *)
  sub : T -> T -> T;           (* [x - y] *)
  mul : T -> T -> T;           (* [x * y] *)
  quot : T -> T -> T;          (* [x / y] for a divisor that is not zero *)
  is_zero : T -> bool          (* [y == 0] *)
}.

(** Python's float [/]: raises on a zero divisor whatever the dividend. *)
Definition truediv {T : Type} `{Scalar T} (x y : T) : result T :=
  if is_zero y then Raise ZeroDivisionError else Ok (quot x y).

(** Exact real arithmetic. *)
#[export] Instance R_Scalar : Scalar R := {
  zero := 0%R;
  add := Rplus;
  sub := Rminus;
  mul := Rmult;
  quot := Rdiv;
  is_zero := fun y => if Req_dec_T y 0%R then true else false
}.

(** IEEE-754 binary64 with round-to-nearest-even, the arithmetic of Python's
    [float].  [0.0 == -0.0] holds, so both zeros make [/] raise. *)
#[export] Instance float_Scalar : Scalar float := {
  zero := 0%float;
  add := PrimFloat.add;
  sub := PrimFloat.sub;
  mul := PrimFloat.mul;
  quot := PrimFloat.div;
  is_zero := fun y => PrimFloat.eqb y 0%float
}.

(** ** The Vector class *)

Section VectorClass.

Context {T : Type} `{Scalar T}.

(** [class Vector]: one attribute, [data], a Python list. *)
Record Vector : Type := mkVector { data : list T }.

(** The right-hand operand of an operator.  [isinstance(y, float)] separates
    a float from everything else, and everything else is used as a [Vector]
    through [y.data].  The two kinds of operand the class is written for are
    modelled: a float and a [Vector]. *)
Inductive operand : Type :=
| Float (y : T)
| Vec (y : Vector).

(** [__len__]: prints a greeting, then returns [len(self.data)]. *)
Definition __len__ (self : Vector) : result nat := Ok (List.length (data self)).

(** The builtin [sum] over a list: left to right, starting from [0]. *)
Definition builtin_sum (l : list T) : T := fold_left add l zero.

(** Global names.  The notebook binds [Human], [borges], [cortazar],
    [Vector], [v] and [u] and imports nothing at module level; of the
    builtins, only [sum] is a function from a list to a number.  A name that
    is bound to such a function is given by the function's body; looking up
    any other name to call it on a list raises [NameError]. *)
Definition namespace : Type := string -> option (list T -> result T).

Definition notebook_globals : namespace :=
  fun name =>
    if String.eqb name "sum" then Some (fun l => Ok (builtin_sum l)) else None.

Definition call (globals : namespace) (name : string) (arg : list T) : result T :=
  match globals name with
  | Some f => f arg
  | None => Raise (NameError name)
  end.

(** [def sum(self): return sum(self.data)] *)
Definition sum (self : Vector) : result T :=
  call notebook_globals "sum" (data self).

(** [def mean(self): return average(self.data)] *)
Definition mean (self : Vector) : result T :=
  call notebook_globals "average" (data self).

(** The builtin [zip]: pairs positionally and stops at the shorter list. *)
Definition zip (l1 l2 : list T) : list (T * T) := combine l1 l2.

(** [def __add__(self, y)] *)
Definition __add__ (self : Vector) (y : operand) : result Vector :=
  match y with
  | Float y => Ok (mkVector (map (fun x => add x y) (data self)))
  | Vec y => Ok (mkVector (map (fun '(x, _y) => add x _y) (zip (data self) (data y))))
  end.

(** [def __sub__(self, y)] *)
Definition __sub__ (self : Vector) (y : operand) : result Vector :=
  match y with
  | Float y => Ok (mkVector (map (fun x => sub x y) (data self)))
  | Vec y => Ok (mkVector (map (fun '(x, _y) => sub x _y) (zip (data self) (data y))))
  end.

(** [def __mul__(self, y)] *)
Definition __mul__ (self : Vector) (y : operand) : result Vector :=
  match y with
  | Float y => Ok (mkVector (map (fun x => mul x y) (data self)))
  | Vec y => Ok (mkVector (map (fun '(x, _y) => mul x _y) (zip (data self) (data y))))
  end.

(** [def __truediv__(self, y)] *)
Definition __truediv__ (self : Vector) (y : operand) : result Vector :=
  match y with
  | Float y =>
      d <- comprehension (fun x => truediv x y) (data self) ;;
      Ok (mkVector d)
  | Vec y =>
      d <- comprehension (fun '(x, _y) => truediv x _y) (zip (data self) (data y)) ;;
      Ok (mkVector d)
  end.

(** [def dot(self, y): return (self * y).sum()] *)
Definition dot (self : Vector) (y : operand) : result T :=
  p <- __mul__ self y ;; sum p.

End VectorClass.

Arguments Vector T : clear implicits.
Arguments operand T : clear implicits.
Arguments namespace T : clear implicits.

(** [v + s - s]: adding a scalar and subtracting it again. *)
Definition add_then_sub {T : Type} `{Scalar T} (v : Vector T) (s : T)
  : result (Vector T) :=
  w <- __add__ v (Float s) ;; __sub__ w (Float s).

(** What it means for [r] to be the broadcast of [op] over [v] with the
    scalar [s]: a vector of the length of [v] whose [i]-th element is
    [op v_i s]. *)
Definition broadcast_of {T : Type} (op : T -> T -> T) (v : Vector T) (s : T)
  (r : result (Vector T)) : Prop :=
  exists w, r = Ok w /\
    List.length (data w) = List.length (data v) /\
    forall i x, nth_error (data v) i = Some x ->
                nth_error (data w) i = Some (op x s).

(** What it means for [r] to be the pairwise combination of [v] and [u]
    with [n] elements: a vector of length [n] whose [i]-th element is
    [op v_i u_i] wherever both operands have an [i]-th element. *)
Definition pairwise_of {T : Type} (op : T -> T -> T) (n : nat) (v u : Vector T)
  (r : result (Vector T)) : Prop :=
  exists w, r = Ok w /\
    List.length (data w) = n /\
    forall i x y, nth_error (data v) i = Some x -> nth_error (data u) i = Some y ->
                  nth_error (data w) i = Some (op x y).

(** The divisors that a pairwise division by [u] meets: the elements of [u]
    at the positions that [v] has too. *)
Definition divisors_met {T : Type} (v u : Vector T) : list T :=
  firstn (List.length (data v)) (data u).

(** ** Geometry and the harmonic potential (numpy, over the reals) *)

Section Geometry.

Local Open Scope R_scope.

(** A position: a numpy array of three numbers. *)
Record Coordinate : Type := mkCoordinate { cx : R; cy : R; cz : R }.

(** [def get_distance_vector(x0, x1): return x1 - x0] *)
Definition get_distance_vector (x0 x1 : Coordinate) : Coordinate :=
  mkCoordinate (cx x1 - cx x0) (cy x1 - cy x0) (cz x1 - cz x0).

(** [def get_norm(x01): return np.linalg.norm(x01, ord=2, axis=-1)] *)
Definition get_norm (x01 : Coordinate) : R :=
  sqrt (cx x01 * cx x01 + cy x01 * cy x01 + cz x01 * cz x01).

(** [def get_distance(x0, x1): return get_norm(get_distance_vector(x0, x1))] *)
Definition get_distance (x0 x1 : Coordinate) : R :=
  get_norm (get_distance_vector x0 x1).

(** [np.cross] of two 3-vectors. *)
Definition cross (a b : Coordinate) : Coordinate :=
  mkCoordinate (cy a * cz b - cz a * cy b)
               (cz a * cx b - cx a * cz b)
               (cx a * cy b - cy a * cx b).

(** [(a * b).sum(-1)]: the elementwise product summed over the last axis. *)
Definition mul_sum (a b : Coordinate) : R :=
  cx a * cx b + cy a * cy b + cz a * cz b.

(** [np.arctan2(y, x)]: the angle of the point [(x, y)] in [(-pi, pi]],
    by quadrant, after the C standard's [atan2]. *)
Definition arctan2 (y x : R) : R :=
  if Rlt_dec 0 x then atan (y / x)
  else if Rlt_dec x 0 then
    if Rle_dec 0 y then atan (y / x) + PI else atan (y / x) - PI
  else
    if Rlt_dec 0 y then PI / 2
    else if Rlt_dec y 0 then - (PI / 2)
    else 0.

(** [def get_angle(x0, x1, x2)] *)
Definition get_angle (x0 x1 x2 : Coordinate) : R :=
  let x10 := get_distance_vector x1 x0 in
  let x12 := get_distance_vector x1 x2 in
  let c012 := arctan2 (get_norm (cross x10 x12)) (mul_sum x10 x12) in
  c012.

(** [def harmonic(x, k, r0): return 0.5 * k * (x - r0) ** 2] *)
Definition harmonic (x k r0 : R) : R := 0.5 * k * (x - r0) ^ 2.

(** The notebook's cells that compute the bond energy of the water conformer:
    [x0, x1, x2 = conformer], [r01 = get_distance(x0, x1)],
    [r12 = get_distance(x1, x2)] and
    [bond_energy_computed = harmonic(r01, k_r, r0) + harmonic(r12, k_r, r0)]. *)
Definition bond_energy_computed (conformer : list Coordinate) (k_r r0 : R)
  : result R :=
  match conformer with
  | [x0; x1; x2] =>
      let r01 := get_distance x0 x1 in
      let r12 := get_distance x1 x2 in
      Ok (harmonic r01 k_r r0 + harmonic r12 k_r r0)
  | _ => Raise ValueError
  end.

(** [c012 = get_angle(x0, x1, x2)] and
    [angle_energy_computed = harmonic(c012, k_theta, theta0)]. *)
Definition angle_energy_computed (conformer : list Coordinate) (k_theta theta0 : R)
  : result R :=
  match conformer with
  | [x0; x1; x2] =>
      let c012 := get_angle x0 x1 x2 in
      Ok (harmonic c012 k_theta theta0)
  | _ => Raise ValueError
  end.

(** *** The specification's energy total, for comparison with the cells above *)

(** Modelled from the spec: the notebook has no bond-term record; it reads
    one parameter set [r0, k_r] from OpenMM and uses it for both bonds.
    [BondTerm] is the specification's
    [{atom_i, atom_j, equilibrium_length r0, force_constant k_r}]. *)
Record BondTerm : Type := mkBondTerm {
  atom_i : nat;
  atom_j : nat;
  equilibrium_length : R;
  force_constant : R
}.

(** Modelled from the spec: the notebook never indexes the conformer, it
    unpacks it into three atoms.  The specification's failure semantics: a
    term that references an atom index outside the conformation's bounds
    fails with an IndexError kind. *)
Definition position (conformation : list Coordinate) (i : nat) : result Coordinate :=
  match nth_error conformation i with
  | Some x => Ok x
  | None => Raise IndexError
  end.

(** Modelled from the spec: the notebook has no function for the energy of
    one term.  The specification's step "compute [distance] between its two
    atom positions, apply [harmonicPotential] with that term's [k_r, r0]",
    on the notebook's [get_distance] and [harmonic]. *)
Definition bondTermEnergy (conformation : list Coordinate) (t : BondTerm) : result R :=
  xi <- position conformation (atom_i t) ;;
  xj <- position conformation (atom_j t) ;;
  Ok (harmonic (get_distance xi xj) (force_constant t) (equilibrium_length t)).

(** Modelled from the spec: "sum across all terms", since the notebook adds
    its two energies with one [+]. *)
Definition total (energies : list R) : R := fold_right Rplus 0 energies.

(** Modelled from the spec: the notebook has no [totalBondEnergy] over a
    list of terms, only the cell
    [bond_energy_computed = harmonic(r01, k_r, r0) + harmonic(r12, k_r, r0)].
    The specification's [totalBondEnergy(conformation, bondTerms)]: the
    energy of each term, summed across all terms. *)
Definition totalBondEnergy (conformation : list Coordinate) (bondTerms : list BondTerm)
  : result R :=
  energies <- comprehension (bondTermEnergy conformation) bondTerms ;;
  Ok (total energies).

(** Modelled from the spec: the notebook does not build a list of terms.
    The end-to-end scenario of the specification: one bond term between
    atoms 0-1 and one between atoms 1-2, sharing [r0, k_r]. *)
Definition water_bonds (k_r r0 : R) : list BondTerm :=
  [mkBondTerm 0 1 r0 k_r; mkBondTerm 1 2 r0 k_r].

End Geometry.

(** ** Closeness of floats *)

Section Closeness.

Local Open Scope float_scope.
Local Set Warnings "-inexact-float".

(** [np.isclose(a, b)] with numpy's default tolerances, on binary64. *)
Definition rtol : float := 1e-5.
Definition atol : float := 1e-8.

Definition isclose (a b : float) : bool :=
  PrimFloat.leb (PrimFloat.abs (PrimFloat.sub a b))
                (PrimFloat.add atol (PrimFloat.mul rtol (PrimFloat.abs b))).

(** Two lists are close when they have the same length and are close
    element by element. *)
Fixpoint allclose (l1 l2 : list float) : bool :=
  match l1, l2 with
  | [], [] => true
  | a :: l1', b :: l2' => isclose a b && allclose l1' l2'
  | _, _ => false
  end.

End Closeness.

(** ** The Human class *)

Section HumanClass.

Local Open Scope Z_scope.

(** [class Human]: [__init__] stores [name] and [birth_year]. *)
Record Human : Type := mkHuman { name : string; birth_year : Z }.

(** [def get_age(self): return date.today().year - self.birth_year].  Each
    call reads the clock; the year it reads is the argument [today_year]. *)
Definition get_age (today_year : Z) (self : Human) : Z :=
  today_year - birth_year self.

(** [def is_older_than(self, other): return self.get_age() > other.get_age()].
    The left operand is evaluated first and reads the year [year1], the right
    operand then reads [year2]. *)
Definition is_older_than (year1 year2 : Z) (self other : Human) : bool :=
  get_age year1 self >? get_age year2 other.

(** The two objects of the notebook. *)
Definition borges : Human := mkHuman "borges" 1953.
Definition cortazar : Human := mkHuman "cortazar" 1014.

End HumanClass.

(** ** Moving and scaling positions *)

Section Motions.

Local Open Scope R_scope.

(** [x + t] on numpy arrays: the position [x] moved by [t]. *)
Definition translate (t x : Coordinate) : Coordinate :=
  mkCoordinate (cx x + cx t) (cy x + cy t) (cz x + cz t).

(** [s * x] on a numpy array: the position [x] scaled by the number [s]. *)
Definition scale (s : R) (x : Coordinate) : Coordinate :=
  mkCoordinate (s * cx x) (s * cy x) (s * cz x).

End Motions.

(** * Properties *)

Unset Implicit Arguments.

(** ** List comprehensions *)

Section ComprehensionFacts.

Context {A B : Type}.

Lemma comprehension_total (f : A -> result B) (g : A -> B) (l : list A) :
  (forall a, In a l -> f a = Ok (g a)) ->
  comprehension f l = Ok (map g l).
Proof.
  induction l as [|a l IH]; intros Hf; simpl.
  - reflexivity.
  - rewrite (Hf a (or_introl eq_refl)); simpl.
    rewrite IH by (intros; apply Hf; right; assumption).
    reflexivity.
Qed.

Lemma comprehension_raises (f : A -> result B) (e : exn) (l : list A) :
  (forall a, In a l -> f a = Raise e \/ exists b, f a = Ok b) ->
  (exists a, In a l /\ f a = Raise e) ->
  comprehension f l = Raise e.
Proof.
  induction l as [|a l IH]; intros Hall [a0 [Hin Ha0]].
  - destruct Hin.
  - simpl. destruct (Hall a (or_introl eq_refl)) as [Hr | [b Hb]].
    + rewrite Hr. reflexivity.
    + rewrite Hb. simpl.
      destruct Hin as [-> | Hin]; [congruence|].
      rewrite IH; [reflexivity | | exists a0; split; assumption].
      intros; apply Hall; right; assumption.
Qed.

End ComprehensionFacts.

(** ** The Vector class, for any scalar arithmetic *)

Section VectorFacts.

Context {T : Type} `{Scalar T}.

Lemma truediv_nonzero (x y : T) : is_zero y = false -> truediv x y = Ok (quot x y).
Proof. unfold truediv; intros ->; reflexivity. Qed.

Lemma truediv_zero (x y : T) : is_zero y = true -> truediv x y = Raise ZeroDivisionError.
Proof. unfold truediv; intros ->; reflexivity. Qed.

Lemma truediv_cases (x y : T) :
  truediv x y = Raise ZeroDivisionError \/ exists q, truediv x y = Ok q.
Proof. unfold truediv; destruct (is_zero y); [left | right; eexists]; reflexivity. Qed.

Lemma nth_error_zip_with (op : T -> T -> T) (l1 l2 : list T) (i : nat) (x y : T) :
  nth_error l1 i = Some x -> nth_error l2 i = Some y ->
  nth_error (map (fun '(a, b) => op a b) (zip l1 l2)) i = Some (op x y).
Proof.
  revert l2 i; induction l1 as [|a l1 IH]; intros [|b l2] [|i]; simpl;
    try discriminate.
  - intros [= ->] [= ->]; reflexivity.
  - apply IH.
Qed.

Lemma length_zip_with (op : T -> T -> T) (l1 l2 : list T) :
  List.length (map (fun '(a, b) => op a b) (zip l1 l2))
  = Nat.min (List.length l1) (List.length l2).
Proof. unfold zip; rewrite length_map, length_combine; reflexivity. Qed.

Lemma in_zip_divisor (l1 l2 : list T) (a b : T) :
  In (a, b) (zip l1 l2) -> In b (firstn (List.length l1) l2).
Proof.
  revert l2; induction l1 as [|x l1 IH]; intros [|y l2]; simpl; try tauto.
  intros [[= -> ->] | Hin]; [left; reflexivity | right; apply IH; assumption].
Qed.

Lemma divisor_in_zip (l1 l2 : list T) (b : T) :
  In b (firstn (List.length l1) l2) -> exists a, In (a, b) (zip l1 l2).
Proof.
  revert l2; induction l1 as [|x l1 IH]; intros [|y l2]; simpl; try tauto.
  intros [-> | Hin].
  - exists x; left; reflexivity.
  - destruct (IH _ Hin) as [a Ha]; exists a; right; assumption.
Qed.

Lemma broadcast_map (op : T -> T -> T) (v : Vector T) (s : T) :
  broadcast_of op v s (Ok (mkVector (map (fun x => op x s) (data v)))).
Proof.
  eexists; split; [reflexivity|]; simpl; split.
  - apply length_map.
  - intros i x Hx. rewrite nth_error_map, Hx. reflexivity.
Qed.

Lemma pairwise_zip (op : T -> T -> T) (v u : Vector T) :
  pairwise_of op (Nat.min (List.length (data v)) (List.length (data u))) v u
    (Ok (mkVector (map (fun '(x, _y) => op x _y) (zip (data v) (data u))))).
Proof.
  eexists; split; [reflexivity|]; simpl; split.
  - apply length_zip_with.
  - intros i x y; apply nth_error_zip_with.
Qed.

Lemma truediv_broadcast (v : Vector T) (s : T) :
  is_zero s = false ->
  __truediv__ v (Float s) = Ok (mkVector (map (fun x => quot x s) (data v))).
Proof.
  intros Hs; simpl.
  rewrite (comprehension_total _ (fun x => quot x s)); [reflexivity|].
  intros; apply truediv_nonzero; assumption.
Qed.

Lemma truediv_pairwise (v u : Vector T) :
  forallb (fun y => negb (is_zero y)) (divisors_met v u) = true ->
  __truediv__ v (Vec u)
  = Ok (mkVector (map (fun '(x, _y) => quot x _y) (zip (data v) (data u)))).
Proof.
  intros Hnz; simpl.
  rewrite (comprehension_total _ (fun '(x, _y) => quot x _y)); [reflexivity|].
  intros [a b] Hin. apply truediv_nonzero.
  rewrite forallb_forall in Hnz.
  specialize (Hnz b (in_zip_divisor _ _ _ _ Hin)).
  destruct (is_zero b); [discriminate | reflexivity].
Qed.

Lemma truediv_pairwise_zero (v u : Vector T) :
  existsb is_zero (divisors_met v u) = true ->
  __truediv__ v (Vec u) = Raise ZeroDivisionError.
Proof.
  intros Hz; simpl.
  rewrite (comprehension_raises _ ZeroDivisionError); [reflexivity | | ].
  - intros [a b] _. apply truediv_cases.
  - rewrite existsb_exists in Hz. destruct Hz as [b [Hin Hb]].
    destruct (divisor_in_zip _ _ _ Hin) as [a Ha].
    exists (a, b); split; [assumption | apply truediv_zero; assumption].
Qed.

(** C4, as amended.  With a float on the right, [+], [-] and [*] return the
    broadcast: a vector of the same length whose [i]-th element is [v_i]
    combined with the scalar; so does [/] when the scalar is not zero.  With
    a vector of the same length on the right, [+], [-] and [*] return the
    pairwise combination, a vector of that length whose [i]-th element
    combines the operands' [i]-th elements; so does [/] when no element of
    the divisor is zero.  The constructor of the operand alone selects
    between the two. *)
Theorem operators_broadcast_or_pair (v : Vector T) :
  (forall s : T,
      broadcast_of add v s (__add__ v (Float s)) /\
      broadcast_of sub v s (__sub__ v (Float s)) /\
      broadcast_of mul v s (__mul__ v (Float s)) /\
      (is_zero s = false ->
       broadcast_of quot v s (__truediv__ v (Float s)))) /\
  (forall u : Vector T,
      List.length (data u) = List.length (data v) ->
      let n := List.length (data v) in
      pairwise_of add n v u (__add__ v (Vec u)) /\
      pairwise_of sub n v u (__sub__ v (Vec u)) /\
      pairwise_of mul n v u (__mul__ v (Vec u)) /\
      (forallb (fun y => negb (is_zero y)) (data u) = true ->
       pairwise_of quot n v u (__truediv__ v (Vec u)))).
Proof.
  split.
  - intros s. repeat split; try apply broadcast_map.
    intros Hs. rewrite truediv_broadcast by assumption. apply broadcast_map.
  - intros u Hlen n.
    assert (Hn : Nat.min (List.length (data v)) (List.length (data u)) = n)
      by (rewrite Hlen; apply Nat.min_id).
    repeat split; try (rewrite <- Hn; apply pairwise_zip).
    intros Hnz. rewrite truediv_pairwise.
    + rewrite <- Hn; apply pairwise_zip.
    + unfold divisors_met. rewrite <- Hlen, firstn_all. assumption.
Qed.

(** C6, as amended.  Operands of different lengths do not make the binary
    operations fail.  [+], [-] and [*] return the pairwise combination over
    the positions both operands have, a vector as long as the shorter
    operand; [dot] returns the sum of the products over those positions; [/]
    does the same as [+] unless one of the divisors it meets is zero, and
    then raises [ZeroDivisionError].  (Nothing here depends on the lengths
    being different.) *)
Theorem mismatched_lengths_truncate (u v : Vector T) :
  let n := Nat.min (List.length (data u)) (List.length (data v)) in
  pairwise_of add n u v (__add__ u (Vec v)) /\
  pairwise_of sub n u v (__sub__ u (Vec v)) /\
  pairwise_of mul n u v (__mul__ u (Vec v)) /\
  dot u (Vec v)
    = Ok (builtin_sum (map (fun '(x, y) => mul x y) (zip (data u) (data v)))) /\
  (forallb (fun y => negb (is_zero y)) (divisors_met u v) = true ->
   pairwise_of quot n u v (__truediv__ u (Vec v))) /\
  (existsb is_zero (divisors_met u v) = true ->
   __truediv__ u (Vec v) = Raise ZeroDivisionError).
Proof.
  intros n. repeat split; try apply pairwise_zip.
  - intros Hnz. rewrite truediv_pairwise by assumption. apply pairwise_zip.
  - apply truediv_pairwise_zero.
Qed.

(** C7.  On a vector that is not empty, [/] raises [ZeroDivisionError] when
    the scalar on the right is zero, and when the vector on the right has the
    same length and a zero among its elements. *)
Theorem division_by_zero_raises (v : Vector T) :
  data v <> [] ->
  (forall s : T, is_zero s = true ->
      __truediv__ v (Float s) = Raise ZeroDivisionError) /\
  (forall u : Vector T,
      List.length (data u) = List.length (data v) ->
      existsb is_zero (data u) = true ->
      __truediv__ v (Vec u) = Raise ZeroDivisionError).
Proof.
  intros Hne; split.
  - intros s Hs; simpl.
    rewrite (comprehension_raises _ ZeroDivisionError); [reflexivity | | ].
    + intros a _; apply truediv_cases.
    + destruct (data v) as [|a l]; [contradiction|].
      exists a; split; [left; reflexivity | apply truediv_zero; assumption].
  - intros u Hlen Hz. apply truediv_pairwise_zero.
    unfold divisors_met. rewrite <- Hlen, firstn_all. assumption.
Qed.

(** [dot] of two vectors is the sum of the products of the paired
    elements. *)
Lemma dot_sum_of_products (u v : Vector T) :
  dot u (Vec v)
  = Ok (builtin_sum (map (fun '(x, y) => mul x y) (zip (data u) (data v)))).
Proof. reflexivity. Qed.

(** [len] returns the number of elements. *)
Lemma len_data (v : Vector T) : __len__ v = Ok (List.length (data v)).
Proof. reflexivity. Qed.

(** Adding a scalar and subtracting it again acts element by element. *)
Lemma add_then_sub_map (v : Vector T) (s : T) :
  add_then_sub v s = Ok (mkVector (map (fun x => sub (add x s) s) (data v))).
Proof. unfold add_then_sub; simpl. rewrite map_map. reflexivity. Qed.

Lemma mean_unbound (v : Vector T) : mean v = Raise (NameError "average").
Proof. reflexivity. Qed.

End VectorFacts.

(** The zero test of each arithmetic. *)
Lemma R_is_zero (y : R) : is_zero y = true <-> y = 0%R.
Proof.
  simpl. destruct (Req_dec_T y 0%R); split; intros; congruence.
Qed.

Lemma float_is_zero_signed : is_zero 0%float = true /\ is_zero (-0)%float = true.
Proof. split; reflexivity. Qed.

(** ** The Vector class on concrete operands *)

Section VectorExamples.

Local Open Scope float_scope.

(** The notebook's own cell: [u + v, u - v, u * v] for [v = [0.0, 1.0]] and
    [u = [3.0, 4.0]] prints [([3.0, 5.0], [3.0, 3.0], [0.0, 4.0])]. *)
Example notebook_cell_15 :
  let v := mkVector [0; 1] in
  let u := mkVector [3; 4] in
  __add__ u (Vec v) = Ok (mkVector [3; 5]) /\
  __sub__ u (Vec v) = Ok (mkVector [3; 3]) /\
  __mul__ u (Vec v) = Ok (mkVector [0; 4]).
Proof. repeat split. Qed.

(** C4, counterexample: [Vector([1.0]) / 0.0] raises instead of returning the
    broadcast quotient. *)
Lemma scalar_division_counterexample :
  let v := mkVector [1] in
  __truediv__ v (Float 0) = Raise ZeroDivisionError /\
  ~ broadcast_of quot v 0 (__truediv__ v (Float 0)).
Proof.
  split; [reflexivity|].
  intros [w [Hw _]]. discriminate Hw.
Qed.

(** Witness for C4: broadcasting by [2.0] and pairing with [[4.0, 8.0]]. *)
Lemma operators_broadcast_or_pair_witness :
  let v := mkVector [1; 2] in
  broadcast_of quot v 2 (__truediv__ v (Float 2)) /\
  pairwise_of quot 2 v (mkVector [4; 8]) (__truediv__ v (Vec (mkVector [4; 8]))).
Proof.
  intros v.
  destruct (operators_broadcast_or_pair v) as [Hs Hu].
  split.
  - apply (Hs 2). reflexivity.
  - apply (Hu (mkVector [4; 8])); reflexivity.
Defined.

(** C6, counterexample: [Vector([1.0, 2.0]) + Vector([10.0])] returns
    [[11.0]], and [dot] of the two returns [10.0]; neither fails. *)
Lemma mismatched_lengths_counterexample :
  let u := mkVector [1; 2] in
  let v := mkVector [10] in
  List.length (data u) <> List.length (data v) /\
  __add__ u (Vec v) = Ok (mkVector [11]) /\
  dot u (Vec v) = Ok 10 /\
  ~ (exists e, __add__ u (Vec v) = Raise e) /\
  ~ (exists e, dot u (Vec v) = Raise e).
Proof.
  repeat split.
  - discriminate.
  - intros [e He]; discriminate He.
  - intros [e He]; discriminate He.
Qed.

(** Witness for C6: [[1.0, 2.0] / [4.0]] and [[1.0, 2.0] / [0.0]]. *)
Lemma mismatched_lengths_truncate_witness :
  let u := mkVector [1; 2] in
  pairwise_of quot 1 u (mkVector [4]) (__truediv__ u (Vec (mkVector [4]))) /\
  __truediv__ u (Vec (mkVector [0])) = Raise ZeroDivisionError.
Proof.
  intros u. split.
  - apply (mismatched_lengths_truncate u (mkVector [4])). reflexivity.
  - apply (mismatched_lengths_truncate u (mkVector [0])). reflexivity.
Defined.

(** Witness for C7: [[1.0, 2.0] / 0.0] and [[1.0, 2.0] / [4.0, -0.0]]. *)
Lemma division_by_zero_raises_witness :
  let v := mkVector [1; 2] in
  __truediv__ v (Float 0) = Raise ZeroDivisionError /\
  __truediv__ v (Vec (mkVector [4; -0])) = Raise ZeroDivisionError.
Proof.
  intros v.
  destruct (division_by_zero_raises v) as [Hs Hu]; [discriminate|].
  split.
  - apply Hs. reflexivity.
  - apply Hu; reflexivity.
Defined.

(** C5.  [mean] looks up the global name [average], which nothing in the
    notebook defines or imports, so every call raises [NameError]:
    [Vector([1.0, 2.0]).mean()] does not return [1.5], and
    [Vector([]).mean()] does not raise [ZeroDivisionError]. *)
Theorem mean_raises_NameError :
  (forall (T : Type) (H : Scalar T) (v : Vector T),
      mean v = Raise (NameError "average")) /\
  mean (mkVector [1; 2]) = Raise (NameError "average") /\
  mean (mkVector ([] : list float)) = Raise (NameError "average").
Proof. repeat split. Qed.

(** C9, counterexample: [Vector([1.0]) + 1e16 - 1e16] is [[0.0]], because
    [1.0 + 1e16] rounds to [1e16]; and [0.0] is not close to [1.0]. *)
Lemma add_then_sub_counterexample :
  let v := mkVector [1] in
  add_then_sub v 1e16 = Ok (mkVector [0]) /\
  allclose [0] (data v) = false /\
  ~ (exists w, add_then_sub v 1e16 = Ok w /\ allclose (data w) (data v) = true).
Proof.
  repeat split.
  intros [w [Hw Hclose]].
  injection Hw as <-. discriminate Hclose.
Qed.

End VectorExamples.

(** C9, as amended.  [v + s - s] has the [i]-th element [(v_i + s) - s]
    whatever the arithmetic, and in exact real arithmetic that is [v]
    itself. *)
Theorem add_then_sub_round_trip :
  (forall (T : Type) (H : Scalar T) (v : Vector T) (s : T),
      add_then_sub v s = Ok (mkVector (map (fun x => sub (add x s) s) (data v)))) /\
  (forall (v : Vector R) (s : R), add_then_sub v s = Ok v).
Proof.
  split.
  - intros; apply add_then_sub_map.
  - intros [l] s. rewrite add_then_sub_map. simpl. do 2 f_equal.
    induction l as [|x l IH]; simpl; [reflexivity|].
    rewrite IH. f_equal. lra.
Qed.

(** ** Geometry and energies *)

Section GeometryFacts.

Local Open Scope R_scope.

(** *** The two-argument arctangent *)

Lemma atan_nonneg (t : R) : 0 <= t -> 0 <= atan t.
Proof.
  intros [Ht | <-].
  - left. rewrite <- atan_0. apply atan_increasing; assumption.
  - rewrite atan_0; apply Rle_refl.
Qed.

Lemma atan_nonpos (t : R) : t <= 0 -> atan t <= 0.
Proof.
  intros [Ht | ->].
  - left. rewrite <- atan_0. apply atan_increasing; assumption.
  - rewrite atan_0; apply Rle_refl.
Qed.

(** With a first argument that is not negative the result is in [[0, pi]]. *)
Lemma arctan2_upper_half (y x : R) : 0 <= y -> 0 <= arctan2 y x <= PI.
Proof.
  intros Hy. unfold arctan2.
  pose proof PI_RGT_0 as Hpi.
  pose proof (atan_bound (y / x)) as [Hlo Hhi].
  destruct (Rlt_dec 0 x) as [Hx | Hx].
  - assert (0 <= y / x) by (apply Rmult_le_pos; [assumption | left; apply Rinv_0_lt_compat; assumption]).
    pose proof (atan_nonneg _ H). lra.
  - destruct (Rlt_dec x 0) as [Hx' | Hx'].
    + destruct (Rle_dec 0 y) as [_ | Hn]; [|contradiction].
      assert (y / x <= 0).
      { unfold Rdiv. assert (/ x < 0) by (apply Rinv_lt_0_compat; assumption). nra. }
      pose proof (atan_nonpos _ H). lra.
    + destruct (Rlt_dec 0 y); [lra|].
      destruct (Rlt_dec y 0); lra.
Qed.

Lemma sqrt_one_plus_sq_pos (t : R) : 0 < sqrt (1 + t²).
Proof. apply sqrt_lt_R0. unfold Rsqr. nra. Qed.

Lemma hypot_scale (y x : R) :
  x <> 0 -> sqrt (x * x + y * y) = Rabs x * sqrt (1 + (y / x)²).
Proof.
  intros Hx.
  replace (x * x + y * y) with (x² * (1 + (y / x)²)) by (unfold Rsqr; field; assumption).
  rewrite sqrt_mult; [| apply Rle_0_sqr | unfold Rsqr; nra].
  rewrite sqrt_Rsqr_abs. reflexivity.
Qed.

(** [arctan2 y x] is the polar angle of the point [(x, y)]. *)
Lemma arctan2_polar (y x : R) :
  sqrt (x * x + y * y) * cos (arctan2 y x) = x /\
  sqrt (x * x + y * y) * sin (arctan2 y x) = y.
Proof.
  unfold arctan2.
  pose proof (sqrt_one_plus_sq_pos (y / x)) as Hpos.
  destruct (Rlt_dec 0 x) as [Hx | Hx]; [| destruct (Rlt_dec x 0) as [Hx' | Hx']].
  - rewrite hypot_scale, Rabs_pos_eq by lra.
    rewrite cos_atan, sin_atan.
    split; field; lra.
  - rewrite hypot_scale, Rabs_left by lra.
    destruct (Rle_dec 0 y).
    + rewrite neg_cos, neg_sin, cos_atan, sin_atan.
      split; field; lra.
    + replace (atan (y / x) - PI) with (- (PI - atan (y / x))) by ring.
      rewrite cos_neg, sin_neg, cos_minus, sin_minus, cos_PI, sin_PI, cos_atan, sin_atan.
      split; field; lra.
  - assert (x = 0) by lra. subst x.
    replace (0 * 0 + y * y) with (y²) by (unfold Rsqr; ring).
    rewrite sqrt_Rsqr_abs.
    destruct (Rlt_dec 0 y); [| destruct (Rlt_dec y 0)].
    + rewrite cos_PI2, sin_PI2, Rabs_pos_eq by lra. lra.
    + rewrite cos_neg, sin_neg, cos_PI2, sin_PI2, Rabs_left by lra. lra.
    + assert (y = 0) by lra. subst y.
      rewrite Rabs_R0. lra.
Qed.

(** *** Vectors in space *)

Lemma sum_of_squares_nonneg (p q r : R) : 0 <= p * p + q * q + r * r.
Proof. nra. Qed.

Lemma get_norm_nonneg (v : Coordinate) : 0 <= get_norm v.
Proof. apply sqrt_pos. Qed.

Lemma cross_swap_norm (u v : Coordinate) :
  get_norm (cross u v) = get_norm (cross v u).
Proof. unfold get_norm, cross; simpl. f_equal. ring. Qed.

Lemma mul_sum_comm (u v : Coordinate) : mul_sum u v = mul_sum v u.
Proof. unfold mul_sum. ring. Qed.

(** Lagrange's identity: the cross and dot products split the product of
    the norms. *)
Lemma norm_cross_mul_sum (u v : Coordinate) :
  sqrt (mul_sum u v * mul_sum u v + get_norm (cross u v) * get_norm (cross u v))
  = get_norm u * get_norm v.
Proof.
  unfold get_norm at 1 2. rewrite sqrt_sqrt by apply sum_of_squares_nonneg.
  unfold get_norm. rewrite <- sqrt_mult by apply sum_of_squares_nonneg.
  f_equal. unfold mul_sum, cross; simpl. ring.
Qed.

(** *** The functions on small conformers *)

Example get_distance_unit :
  get_distance (mkCoordinate 0 0 0) (mkCoordinate 0 1 0) = 1.
Proof.
  unfold get_distance, get_distance_vector, get_norm; simpl.
  replace ((0 - 0) * (0 - 0) + (1 - 0) * (1 - 0) + (0 - 0) * (0 - 0)) with 1 by ring.
  apply sqrt_1.
Qed.

Example get_angle_right :
  get_angle (mkCoordinate 1 0 0) (mkCoordinate 0 0 0) (mkCoordinate 0 1 0) = PI / 2.
Proof.
  unfold get_angle, get_distance_vector, get_norm, cross, mul_sum; simpl.
  match goal with |- arctan2 (sqrt ?r) ?d = _ =>
    replace r with 1 by ring; replace d with 0 by ring end.
  rewrite sqrt_1. unfold arctan2.
  destruct (Rlt_dec 0 0); [lra|].
  destruct (Rlt_dec 0 1); [reflexivity | lra].
Qed.

Example get_angle_straight :
  get_angle (mkCoordinate 1 0 0) (mkCoordinate 0 0 0) (mkCoordinate (-1) 0 0) = PI.
Proof.
  unfold get_angle, get_distance_vector, get_norm, cross, mul_sum; simpl.
  match goal with |- arctan2 (sqrt ?r) ?d = _ =>
    replace r with 0 by ring; replace d with (-1) by ring end.
  rewrite sqrt_0. unfold arctan2.
  destruct (Rlt_dec 0 (-1)); [lra|].
  destruct (Rlt_dec (-1) 0); [|lra].
  destruct (Rle_dec 0 0); [|lra].
  replace (0 / -1) with 0 by lra. rewrite atan_0. ring.
Qed.

(** The harmonic potential costs nothing when the force constant is zero,
    and is never negative for a force constant that is not negative. *)
Lemma harmonic_zero_force_constant (x x0 : R) : harmonic x 0 x0 = 0.
Proof. unfold harmonic. ring. Qed.

Lemma harmonic_nonneg (x k x0 : R) : 0 <= k -> 0 <= harmonic x k x0.
Proof.
  intros Hk. unfold harmonic.
  apply Rmult_le_pos; [lra | apply pow2_ge_0].
Qed.

(** The angle energy of a conformer whose angle is the equilibrium angle. *)
Lemma angle_energy_at_equilibrium (x0 x1 x2 : Coordinate) (k_theta : R) :
  angle_energy_computed [x0; x1; x2] k_theta (get_angle x0 x1 x2) = Ok 0.
Proof. simpl. unfold harmonic. f_equal. ring. Qed.

(** *** The claims *)

(** C2.  [get_angle(a, center, b)] forms [v1 = a - center] and
    [v2 = b - center] and returns
    [arctan2(norm(cross(v1, v2)), (v1 * v2).sum())]; that number is the angle
    between [v1] and [v2]: its cosine and sine, scaled by the two norms, are
    the dot product and the norm of the cross product. *)
Theorem get_angle_formula (a center b : Coordinate) :
  let v1 := get_distance_vector center a in
  let v2 := get_distance_vector center b in
  v1 = mkCoordinate (cx a - cx center) (cy a - cy center) (cz a - cz center) /\
  v2 = mkCoordinate (cx b - cx center) (cy b - cy center) (cz b - cz center) /\
  get_angle a center b = arctan2 (get_norm (cross v1 v2)) (mul_sum v1 v2) /\
  get_norm v1 * get_norm v2 * cos (get_angle a center b) = mul_sum v1 v2 /\
  get_norm v1 * get_norm v2 * sin (get_angle a center b) = get_norm (cross v1 v2).
Proof.
  intros v1 v2. repeat split.
  - unfold get_angle. fold v1 v2. rewrite <- norm_cross_mul_sum.
    apply arctan2_polar.
  - unfold get_angle. fold v1 v2. rewrite <- norm_cross_mul_sum.
    apply arctan2_polar.
Qed.

(** C3.  [harmonic(x, k, x0)] is [0.5 * k * (x - x0)^2], and it is zero at
    [x = x0] for every [k]. *)
Theorem harmonic_formula (x k x0 : R) :
  harmonic x k x0 = 0.5 * k * (x - x0) ^ 2 /\
  harmonic x k x0 = k * ((x - x0) * (x - x0)) / 2 /\
  harmonic x0 k x0 = 0.
Proof. unfold harmonic. repeat split; lra. Qed.

(** C8.  Swapping the two outer atoms leaves the angle unchanged. *)
Theorem get_angle_symmetric (a c b : Coordinate) :
  get_angle a c b = get_angle b c a.
Proof.
  unfold get_angle. cbv zeta.
  rewrite cross_swap_norm, mul_sum_comm. reflexivity.
Qed.

(** C10.  The first argument of the arctangent, the norm of the cross
    product, is never negative, and so the angle lies in [[0, pi]]. *)
Theorem get_angle_range (a center b : Coordinate) :
  let v1 := get_distance_vector center a in
  let v2 := get_distance_vector center b in
  0 <= get_norm (cross v1 v2) /\
  0 <= get_angle a center b <= PI.
Proof.
  intros v1 v2. split.
  - apply get_norm_nonneg.
  - unfold get_angle. apply arctan2_upper_half, get_norm_nonneg.
Qed.

Lemma bondTermEnergy_in_range (conformation : list Coordinate) (t : BondTerm)
  (d : Coordinate) :
  (atom_i t < List.length conformation)%nat ->
  (atom_j t < List.length conformation)%nat ->
  bondTermEnergy conformation t
  = Ok (harmonic (get_distance (nth (atom_i t) conformation d)
                               (nth (atom_j t) conformation d))
                 (force_constant t) (equilibrium_length t)).
Proof.
  intros Hi Hj. unfold bondTermEnergy, position.
  rewrite (nth_error_nth' conformation d Hi), (nth_error_nth' conformation d Hj).
  reflexivity.
Qed.

(** The harmonic potential of the distance between two positions, written
    out: half the force constant times the square of the difference between
    the Euclidean distance and the equilibrium length. *)
Lemma harmonic_of_distance (p q : Coordinate) (k r0 : R) :
  harmonic (get_distance p q) k r0
  = 0.5 * k * (sqrt ((cx q - cx p) * (cx q - cx p)
                     + (cy q - cy p) * (cy q - cy p)
                     + (cz q - cz p) * (cz q - cz p)) - r0) ^ 2.
Proof. reflexivity. Qed.

(** C1.  For bond terms whose atom indices are in range, the total bond
    energy is the sum, over the terms, of half the term's force constant
    times the square of the difference between the Euclidean distance of the
    term's two atoms and the term's equilibrium length; each summand is the
    notebook's [harmonic] of the notebook's [get_distance]; and the
    notebook's [bond_energy_computed] is that sum for the two bonds, 0-1 and
    1-2, of its three-atom conformer. *)
Theorem totalBondEnergy_is_sum :
  (forall (conformation : list Coordinate) (bondTerms : list BondTerm)
          (d : Coordinate),
      (forall t, In t bondTerms ->
                 (atom_i t < List.length conformation)%nat /\
                 (atom_j t < List.length conformation)%nat) ->
      totalBondEnergy conformation bondTerms
      = Ok (fold_right Rplus 0
              (map (fun t =>
                      let xi := nth (atom_i t) conformation d in
                      let xj := nth (atom_j t) conformation d in
                      0.5 * force_constant t
                      * (sqrt ((cx xj - cx xi) * (cx xj - cx xi)
                               + (cy xj - cy xi) * (cy xj - cy xi)
                               + (cz xj - cz xi) * (cz xj - cz xi))
                         - equilibrium_length t) ^ 2)
                   bondTerms))) /\
  (forall (p q : Coordinate) (k r0 : R),
      harmonic (get_distance p q) k r0
      = 0.5 * k * (sqrt ((cx q - cx p) * (cx q - cx p)
                         + (cy q - cy p) * (cy q - cy p)
                         + (cz q - cz p) * (cz q - cz p)) - r0) ^ 2) /\
  (forall (x0 x1 x2 : Coordinate) (k_r r0 : R),
      bond_energy_computed [x0; x1; x2] k_r r0
      = Ok (0.5 * k_r * (sqrt ((cx x1 - cx x0) * (cx x1 - cx x0)
                               + (cy x1 - cy x0) * (cy x1 - cy x0)
                               + (cz x1 - cz x0) * (cz x1 - cz x0)) - r0) ^ 2
            + 0.5 * k_r * (sqrt ((cx x2 - cx x1) * (cx x2 - cx x1)
                                 + (cy x2 - cy x1) * (cy x2 - cy x1)
                                 + (cz x2 - cz x1) * (cz x2 - cz x1)) - r0) ^ 2) /\
      bond_energy_computed [x0; x1; x2] k_r r0
      = totalBondEnergy [x0; x1; x2] (water_bonds k_r r0)).
Proof.
  split; [|split].
  - intros conformation bondTerms d Hrange. unfold totalBondEnergy.
    rewrite (comprehension_total _
               (fun t => harmonic (get_distance (nth (atom_i t) conformation d)
                                                (nth (atom_j t) conformation d))
                                  (force_constant t) (equilibrium_length t))).
    + unfold total, harmonic, get_distance, get_norm, get_distance_vector.
      reflexivity.
    + intros t Ht. destruct (Hrange t Ht).
      apply bondTermEnergy_in_range; assumption.
  - intros. apply harmonic_of_distance.
  - intros. split.
    + unfold bond_energy_computed. cbv zeta.
      rewrite !harmonic_of_distance. reflexivity.
    + unfold totalBondEnergy, bond_energy_computed, total; simpl.
      apply f_equal. ring.
Qed.

(** Witness for C1: atoms at [(1,0,0)], [(0,0,0)] and [(0,2,0)] with
    [k_r = 2] and [r0 = 1].  The bond 0-1 has length 1 and costs nothing, the
    bond 1-2 has length 2 and costs [0.5 * 2 * (2 - 1)^2 = 1]. *)
Lemma totalBondEnergy_is_sum_witness :
  totalBondEnergy [mkCoordinate 1 0 0; mkCoordinate 0 0 0; mkCoordinate 0 2 0]
                  (water_bonds 2 1)
  = Ok 1.
Proof.
  rewrite (proj1 totalBondEnergy_is_sum
             [mkCoordinate 1 0 0; mkCoordinate 0 0 0; mkCoordinate 0 2 0]
             (water_bonds 2 1) (mkCoordinate 0 0 0)).
  - simpl. f_equal.
    replace ((0 - 1) * (0 - 1) + (0 - 0) * (0 - 0) + (0 - 0) * (0 - 0)) with 1 by ring.
    replace ((0 - 0) * (0 - 0) + (2 - 0) * (2 - 0) + (0 - 0) * (0 - 0)) with (2 * 2) by ring.
    rewrite sqrt_1, sqrt_square by lra. lra.
  - intros t [<- | [<- | []]]; simpl; lia.
Defined.

End GeometryFacts.

(** * Further properties of the code *)

(** ** The Vector class: how the operators relate *)

Section VectorOperators.

Context {T : Type} `{Scalar T}.

Lemma zip_repeat (l : list T) (s : T) :
  zip l (repeat s (List.length l)) = map (fun x => (x, s)) l.
Proof.
  unfold zip. induction l as [|x l IH]; simpl; [reflexivity|].
  rewrite IH. reflexivity.
Qed.

Lemma comprehension_map {A B C : Type} (g : A -> B) (f : B -> result C) (l : list A) :
  comprehension f (map g l) = comprehension (fun a => f (g a)) l.
Proof.
  induction l as [|a l IH]; simpl; [reflexivity|].
  rewrite IH. reflexivity.
Qed.

Lemma not_exists_all (f : T -> bool) (l : list T) :
  existsb f l = false -> forallb (fun y => negb (f y)) l = true.
Proof.
  induction l as [|a l IH]; simpl; [reflexivity|].
  destruct (f a); simpl; [discriminate | exact IH].
Qed.

(** A scalar on the right acts exactly like a vector that repeats the scalar
    once for each element of the left operand, for all four operators and
    including the case where division raises. *)
Theorem broadcast_as_pairwise (v : Vector T) (s : T) :
  let c := Vec (mkVector (repeat s (List.length (data v)))) in
  __add__ v (Float s) = __add__ v c /\
  __sub__ v (Float s) = __sub__ v c /\
  __mul__ v (Float s) = __mul__ v c /\
  __truediv__ v (Float s) = __truediv__ v c.
Proof.
  simpl. rewrite zip_repeat, !map_map, comprehension_map. repeat split.
Qed.

(** Division fails exactly when a divisor it meets is zero.  With a scalar
    that needs a zero scalar and a left operand that is not empty (dividing
    the empty vector by zero returns the empty vector); with a vector it
    needs a zero among the elements that get paired.  With either of these
    two kinds of operand, a float or a [Vector], no other exception than
    [ZeroDivisionError] is raised. *)
Theorem truediv_fails_exactly (v : Vector T) :
  (forall s : T,
      __truediv__ v (Float s) = Raise ZeroDivisionError
      <-> data v <> [] /\ is_zero s = true) /\
  (forall u : Vector T,
      __truediv__ v (Vec u) = Raise ZeroDivisionError
      <-> existsb is_zero (divisors_met v u) = true) /\
  (forall (y : operand T) (e : exn), __truediv__ v y = Raise e -> e = ZeroDivisionError).
Proof.
  assert (Hs : forall s, __truediv__ v (Float s) = Raise ZeroDivisionError
                         <-> data v <> [] /\ is_zero s = true).
  { intros s; split.
    - intros Hr. destruct (is_zero s) eqn:Hz.
      + split; [|reflexivity]. intros Hnil. simpl in Hr. rewrite Hnil in Hr.
        discriminate Hr.
      + rewrite truediv_broadcast in Hr by assumption. discriminate Hr.
    - intros [Hne Hz]. simpl.
      rewrite (comprehension_raises _ ZeroDivisionError); [reflexivity | | ].
      + intros a _; apply truediv_cases.
      + destruct (data v) as [|a l]; [contradiction|].
        exists a; split; [left; reflexivity | apply truediv_zero; assumption]. }
  assert (Hu : forall u, __truediv__ v (Vec u) = Raise ZeroDivisionError
                         <-> existsb is_zero (divisors_met v u) = true).
  { intros u; split.
    - intros Hr. destruct (existsb is_zero (divisors_met v u)) eqn:Hz; [reflexivity|].
      rewrite truediv_pairwise in Hr by (apply not_exists_all; assumption).
      discriminate Hr.
    - apply truediv_pairwise_zero. }
  split; [exact Hs | split; [exact Hu |]].
  intros [s | u] e Hr.
  - destruct (is_zero s) eqn:Hz.
    + destruct (data v) as [|a l] eqn:Hd.
      * simpl in Hr. rewrite Hd in Hr. discriminate Hr.
      * assert (Hz' : __truediv__ v (Float s) = Raise ZeroDivisionError).
        { apply Hs. split; [try rewrite Hd; discriminate | assumption]. }
        congruence.
    + rewrite truediv_broadcast in Hr by assumption. discriminate Hr.
  - destruct (existsb is_zero (divisors_met v u)) eqn:Hz.
    + rewrite truediv_pairwise_zero in Hr by assumption. congruence.
    + rewrite truediv_pairwise in Hr by (apply not_exists_all; assumption).
      discriminate Hr.
Qed.

End VectorOperators.

(** ** The Vector class on binary64 *)

Section SpecFloatFacts.

Variables prec emax : Z.

Lemma SFmul_comm (x y : spec_float) : SFmul prec emax x y = SFmul prec emax y x.
Proof.
  destruct x as [sx | sx | | sx mx ex], y as [sy | sy | | sy my ey]; simpl;
    try reflexivity; try (rewrite (xorb_comm sx sy); reflexivity).
  rewrite (xorb_comm sx sy), (Pos.mul_comm mx my), (Z.add_comm ex ey). reflexivity.
Qed.

Lemma SFadd_comm (x y : spec_float) : SFadd prec emax x y = SFadd prec emax y x.
Proof.
  destruct x as [sx | sx | | sx mx ex], y as [sy | sy | | sy my ey]; simpl;
    try reflexivity; try (destruct sx, sy; reflexivity).
  rewrite (Z.min_comm ey ex), Z.add_comm. reflexivity.
Qed.

(** A finite number minus itself is [+0]. *)
Lemma SFsub_diag_finite (s : bool) (m : positive) (e : Z) :
  SFsub prec emax (S754_finite s m e) (S754_finite s m e) = S754_zero false.
Proof. simpl. rewrite Z.sub_diag. reflexivity. Qed.

End SpecFloatFacts.

Section FloatFacts.

Local Open Scope float_scope.

Lemma float_mul_comm (x y : float) : x * y = y * x.
Proof. apply Prim2SF_inj. rewrite !mul_spec. apply SFmul_comm. Qed.

Lemma float_add_comm (x y : float) : x + y = y + x.
Proof. apply Prim2SF_inj. rewrite !add_spec. apply SFadd_comm. Qed.

Lemma float_sub_zero (x : float) : x - 0 = x.
Proof.
  apply Prim2SF_inj. rewrite sub_spec.
  change (Prim2SF 0) with (S754_zero false).
  destruct (Prim2SF x) as [[|] | [|] | | sx mx ex]; reflexivity.
Qed.

Lemma float_add_zero (x : float) : x <> -0 -> x + 0 = x.
Proof.
  intros Hx. apply Prim2SF_inj. rewrite add_spec.
  change (Prim2SF 0) with (S754_zero false).
  destruct (Prim2SF x) as [[|] | [|] | | sx mx ex] eqn:E; try reflexivity.
  exfalso. apply Hx. apply Prim2SF_inj. rewrite E. reflexivity.
Qed.

(** [is_finite] excludes the infinities and NaN. *)
Lemma is_finite_spec (x : float) :
  is_finite x = true ->
  (exists s, Prim2SF x = S754_zero s) \/ (exists s m e, Prim2SF x = S754_finite s m e).
Proof.
  unfold is_finite, is_nan, is_infinity.
  rewrite !FloatAxioms.eqb_spec, abs_spec.
  change (Prim2SF infinity) with (S754_infinity false).
  destruct (Prim2SF x) as [s | [|] | | s m e]; simpl; intros Hf.
  - left; exists s; reflexivity.
  - discriminate Hf.
  - discriminate Hf.
  - discriminate Hf.
  - right; exists s, m, e; reflexivity.
Qed.

Lemma float_sub_diag (x : float) : is_finite x = true -> x - x = 0.
Proof.
  intros Hf. apply Prim2SF_inj. rewrite sub_spec.
  change (Prim2SF 0) with (S754_zero false).
  destruct (is_finite_spec x Hf) as [[s ->] | [s [m [e ->]]]].
  - destruct s; reflexivity.
  - apply SFsub_diag_finite.
Qed.

End FloatFacts.

Section VectorArithmetic.

Lemma zip_with_comm {T : Type} (op : T -> T -> T) :
  (forall x y, op x y = op y x) ->
  forall l1 l2 : list T,
    map (fun '(x, _y) => op x _y) (combine l1 l2)
    = map (fun '(x, _y) => op x _y) (combine l2 l1).
Proof.
  intros Hop l1. induction l1 as [|a l1 IH]; intros [|b l2]; simpl;
    try reflexivity.
  rewrite (Hop a b), IH. reflexivity.
Qed.

(** [u + v], [u * v] and [u.dot(v)] do not depend on the order of the two
    vectors, whatever their lengths: on binary64 the results are the same
    floats (all NaNs being one value), and over the reals they are equal. *)
Theorem pairwise_operators_commute :
  (forall u v : Vector float,
      __add__ u (Vec v) = __add__ v (Vec u) /\
      __mul__ u (Vec v) = __mul__ v (Vec u) /\
      dot u (Vec v) = dot v (Vec u)) /\
  (forall u v : Vector R,
      __add__ u (Vec v) = __add__ v (Vec u) /\
      __mul__ u (Vec v) = __mul__ v (Vec u) /\
      dot u (Vec v) = dot v (Vec u)).
Proof.
  split; intros u v; unfold dot; simpl; unfold zip.
  - rewrite (zip_with_comm PrimFloat.add float_add_comm (data u) (data v)).
    rewrite (zip_with_comm PrimFloat.mul float_mul_comm (data u) (data v)).
    repeat split.
  - rewrite (zip_with_comm Rplus Rplus_comm (data u) (data v)).
    rewrite (zip_with_comm Rmult Rmult_comm (data u) (data v)).
    repeat split.
Qed.

(** On binary64, subtracting the scalar [0.0] returns the vector bit for
    bit; adding [0.0] does so too as long as no element is [-0.0] (which
    [+ 0.0] turns into [0.0]), and then adding and subtracting [0.0] is
    exact. *)
Theorem float_zero_scalar (v : Vector float) :
  __sub__ v (Float 0%float) = Ok v /\
  (forallb (fun x => negb (PrimFloat.Leibniz.eqb x (-0)%float)) (data v) = true ->
   __add__ v (Float 0%float) = Ok v /\ add_then_sub v 0%float = Ok v).
Proof.
  destruct v as [l]; simpl.
  assert (Hsub : forall l' : list float, map (fun x => PrimFloat.sub x 0) l' = l').
  { induction l' as [|x l' IH]; simpl; [reflexivity|].
    rewrite float_sub_zero, IH. reflexivity. }
  split; [rewrite Hsub; reflexivity|].
  intros Hnz.
  assert (Hadd : map (fun x => PrimFloat.add x 0) l = l).
  { induction l as [|x l IH]; simpl in *; [reflexivity|].
    apply andb_prop in Hnz. destruct Hnz as [Hx Hl].
    rewrite IH by assumption. rewrite float_add_zero; [reflexivity|].
    intros ->. rewrite (proj2 (FloatAxioms.Leibniz.eqb_spec _ _) eq_refl) in Hx.
    discriminate Hx. }
  unfold add_then_sub; simpl. rewrite Hadd, Hsub. split; reflexivity.
Qed.

Lemma float_zero_scalar_witness :
  let v := mkVector [1; 2.5; -3]%float in
  __add__ v (Float 0%float) = Ok v /\ add_then_sub v 0%float = Ok v.
Proof.
  intros v. apply (float_zero_scalar v). reflexivity.
Defined.

(** On binary64, a vector of finite numbers minus itself is the vector of
    zeros of the same length. *)
Theorem float_self_difference (v : Vector float) :
  forallb is_finite (data v) = true ->
  __sub__ v (Vec v) = Ok (mkVector (map (fun _ => 0%float) (data v))).
Proof.
  destruct v as [l]; simpl. intros Hfin. do 2 f_equal.
  induction l as [|x l IH]; simpl in *; [reflexivity|].
  apply andb_prop in Hfin. destruct Hfin as [Hx Hl].
  rewrite float_sub_diag, IH by assumption. reflexivity.
Qed.

Lemma float_self_difference_witness :
  __sub__ (mkVector [1; 2.5]%float) (Vec (mkVector [1; 2.5]%float))
  = Ok (mkVector [0; 0]%float).
Proof.
  apply (float_self_difference (mkVector [1; 2.5]%float)). reflexivity.
Defined.

(** Over the reals, adding a vector and subtracting it again gives back the
    left operand cut to the length of the right one: exact when the lengths
    agree, and a truncation, not an error, when the right operand is
    shorter. *)
Theorem add_then_sub_vector_R (u v : Vector R) :
  (w <- __add__ u (Vec v) ;; __sub__ w (Vec v))
  = Ok (mkVector (firstn (List.length (data v)) (data u))).
Proof.
  destruct u as [l1], v as [l2]; simpl. do 2 f_equal. unfold zip.
  revert l2; induction l1 as [|a l1 IH]; intros [|b l2]; simpl;
    try reflexivity.
  rewrite IH. f_equal. lra.
Qed.

End VectorArithmetic.

Section VectorDivisionExamples.

Local Open Scope float_scope.

Lemma truediv_fails_exactly_witness :
  let v := mkVector [1; 2] in
  __truediv__ v (Float (-0)) = Raise ZeroDivisionError /\
  __truediv__ v (Vec (mkVector [4; 0; 7])) = Raise ZeroDivisionError.
Proof.
  intros v. destruct (truediv_fails_exactly v) as [Hs [Hu _]]. split.
  - apply Hs. split; [discriminate | reflexivity].
  - apply Hu. reflexivity.
Defined.

End VectorDivisionExamples.

(** ** The Human class *)

Section HumanFacts.

Local Open Scope Z_scope.

(** The notebook's cell: [borges.is_older_than(cortazar),
    cortazar.is_older_than(borges)] prints [(False, True)], in any year. *)
Example notebook_cell_9 (year : Z) :
  is_older_than year year borges cortazar = false /\
  is_older_than year year cortazar borges = true.
Proof.
  unfold is_older_than, get_age; simpl. split.
  - rewrite Z.gtb_ltb. apply Z.ltb_ge. lia.
  - rewrite Z.gtb_ltb. apply Z.ltb_lt. lia.
Qed.

(** As long as the clock does not go back between the two readings of the
    year, [is_older_than] answers [True] only for somebody born in a strictly
    earlier year; in particular nobody is older than themselves. *)
Theorem is_older_than_sound (year1 year2 : Z) (a b : Human) :
  year1 <= year2 ->
  (is_older_than year1 year2 a b = true -> birth_year a < birth_year b) /\
  is_older_than year1 year2 a a = false.
Proof.
  intros Hclock. unfold is_older_than, get_age. split.
  - rewrite Z.gtb_ltb, Z.ltb_lt. lia.
  - rewrite Z.gtb_ltb. apply Z.ltb_ge. lia.
Qed.

Lemma is_older_than_sound_witness :
  birth_year cortazar < birth_year borges /\
  is_older_than 2024 2025 cortazar cortazar = false.
Proof.
  destruct (is_older_than_sound 2024 2025 cortazar borges) as [Hs Hirr]; [lia|].
  split; [apply Hs; reflexivity | reflexivity].
Defined.

(** When both readings give the same year, [is_older_than] is the comparison
    of the birth years that the method's comment spells out, and so a strict
    order: it is asymmetric and transitive. *)
Theorem is_older_than_same_year (year : Z) (a b c : Human) :
  is_older_than year year a b = (birth_year a <? birth_year b) /\
  (is_older_than year year a b = true -> is_older_than year year b a = false) /\
  (is_older_than year year a b = true -> is_older_than year year b c = true ->
   is_older_than year year a c = true).
Proof.
  assert (Heq : forall p q : Human,
             is_older_than year year p q = (birth_year p <? birth_year q)).
  { intros p q. unfold is_older_than, get_age. rewrite Z.gtb_ltb.
    destruct (birth_year p <? birth_year q) eqn:E.
    - apply Z.ltb_lt. apply Z.ltb_lt in E. lia.
    - apply Z.ltb_ge. apply Z.ltb_ge in E. lia. }
  rewrite !Heq. split; [reflexivity|]. split.
  - rewrite Z.ltb_lt. intros Hab. apply Z.ltb_ge. lia.
  - rewrite !Z.ltb_lt. lia.
Qed.

Lemma is_older_than_same_year_witness :
  is_older_than 2024 2024 borges cortazar = false /\
  is_older_than 2024 2024 cortazar (mkHuman "zambra" 1975) = true.
Proof.
  destruct (is_older_than_same_year 2024 cortazar borges (mkHuman "zambra" 1975))
    as [_ [Hasym Htrans]].
  split; [apply Hasym | apply Htrans]; reflexivity.
Defined.

End HumanFacts.

(** ** Distances *)

Section DistanceFacts.

Local Open Scope R_scope.

Lemma get_norm_sq (v : Coordinate) :
  get_norm v * get_norm v = cx v * cx v + cy v * cy v + cz v * cz v.
Proof. unfold get_norm. apply sqrt_sqrt, sum_of_squares_nonneg. Qed.

Lemma get_norm_zero_iff (v : Coordinate) :
  get_norm v = 0 <-> cx v = 0 /\ cy v = 0 /\ cz v = 0.
Proof.
  split.
  - intros Hn. pose proof (get_norm_sq v) as Hsq. rewrite Hn in Hsq.
    repeat split; nra.
  - intros [Hx [Hy Hz]]. unfold get_norm. rewrite Hx, Hy, Hz.
    replace (0 * 0 + 0 * 0 + 0 * 0) with 0 by ring. apply sqrt_0.
Qed.

(** Cauchy-Schwarz: the dot product is at most the product of the norms. *)
Lemma mul_sum_le_norms (u v : Coordinate) :
  mul_sum u v <= get_norm u * get_norm v.
Proof.
  rewrite <- norm_cross_mul_sum.
  set (d := mul_sum u v). set (n := get_norm (cross u v)).
  apply Rle_trans with (Rabs d); [apply Rle_abs|].
  rewrite <- sqrt_Rsqr_abs. unfold Rsqr.
  apply sqrt_le_1; nra.
Qed.

(** The distance is symmetric, never negative, and zero exactly between a
    position and itself. *)
Theorem get_distance_metric (a b : Coordinate) :
  get_distance a b = get_distance b a /\
  0 <= get_distance a b /\
  (get_distance a b = 0 <-> a = b).
Proof.
  split; [|split].
  - unfold get_distance, get_distance_vector, get_norm; simpl. f_equal. ring.
  - apply get_norm_nonneg.
  - unfold get_distance. rewrite get_norm_zero_iff.
    destruct a as [ax ay az], b as [bx by_ bz]; simpl. split.
    + intros [Hx [Hy Hz]]. f_equal; lra.
    + intros [= -> -> ->]. lra.
Qed.

(** The triangle inequality: going through a third position is never
    shorter. *)
Theorem get_distance_triangle (a b c : Coordinate) :
  get_distance a c <= get_distance a b + get_distance b c.
Proof.
  unfold get_distance.
  set (u := get_distance_vector a b). set (v := get_distance_vector b c).
  set (w := get_distance_vector a c).
  pose proof (get_norm_nonneg u) as Hu. pose proof (get_norm_nonneg v) as Hv.
  pose proof (get_norm_sq u) as Hu2. pose proof (get_norm_sq v) as Hv2.
  pose proof (get_norm_sq w) as Hw2. pose proof (mul_sum_le_norms u v) as Hcs.
  assert (Hw : cx w * cx w + cy w * cy w + cz w * cz w
               = (cx u * cx u + cy u * cy u + cz u * cz u)
                 + (cx v * cx v + cy v * cy v + cz v * cz v)
                 + 2 * mul_sum u v).
  { unfold mul_sum, u, v, w, get_distance_vector; simpl. ring. }
  apply Rsqr_incr_0_var; [unfold Rsqr | lra].
  nra.
Qed.

End DistanceFacts.

(** ** Angles *)

Section AngleFacts.

Local Open Scope R_scope.

Lemma get_distance_vector_translate (t a b : Coordinate) :
  get_distance_vector (translate t a) (translate t b) = get_distance_vector a b.
Proof. unfold get_distance_vector, translate; simpl. f_equal; ring. Qed.

Lemma get_distance_vector_scale (s : R) (a b : Coordinate) :
  get_distance_vector (scale s a) (scale s b) = scale s (get_distance_vector a b).
Proof. unfold get_distance_vector, scale; simpl. f_equal; ring. Qed.

Lemma get_norm_scale (s : R) (v : Coordinate) :
  get_norm (scale s v) = Rabs s * get_norm v.
Proof.
  unfold get_norm, scale; simpl.
  replace (s * cx v * (s * cx v) + s * cy v * (s * cy v) + s * cz v * (s * cz v))
    with (s² * (cx v * cx v + cy v * cy v + cz v * cz v)) by (unfold Rsqr; ring).
  rewrite sqrt_mult; [| apply Rle_0_sqr | apply sum_of_squares_nonneg].
  rewrite sqrt_Rsqr_abs. reflexivity.
Qed.

Lemma cross_scale (s : R) (u v : Coordinate) :
  cross (scale s u) (scale s v) = scale (s * s) (cross u v).
Proof. unfold cross, scale; simpl. f_equal; ring. Qed.

Lemma mul_sum_scale (s : R) (u v : Coordinate) :
  mul_sum (scale s u) (scale s v) = s * s * mul_sum u v.
Proof. unfold mul_sum, scale; simpl. ring. Qed.

(** Scaling both arguments by the same positive number does not change the
    two-argument arctangent. *)
Lemma arctan2_scale (c y x : R) : 0 < c -> arctan2 (c * y) (c * x) = arctan2 y x.
Proof.
  intros Hc. unfold arctan2.
  assert (Hq : x <> 0 -> c * y / (c * x) = y / x) by (intros; field; lra).
  destruct (Rlt_dec 0 x) as [Hx | Hx]; destruct (Rlt_dec 0 (c * x)) as [Hx' | Hx'];
    try (exfalso; nra).
  - rewrite Hq by lra. reflexivity.
  - destruct (Rlt_dec x 0) as [Hn | Hn]; destruct (Rlt_dec (c * x) 0) as [Hn' | Hn'];
      try (exfalso; nra).
    + rewrite Hq by lra.
      destruct (Rle_dec 0 y); destruct (Rle_dec 0 (c * y));
        try (exfalso; nra); reflexivity.
    + destruct (Rlt_dec 0 y); destruct (Rlt_dec 0 (c * y));
        try (exfalso; nra); try reflexivity.
      destruct (Rlt_dec y 0); destruct (Rlt_dec (c * y) 0);
        try (exfalso; nra); reflexivity.
Qed.

(** Moving the three atoms together changes neither a distance nor the
    angle, and scaling them about the origin by a factor that is not zero
    multiplies distances by the size of the factor and leaves the angle
    unchanged: the angle does not depend on the unit of length. *)
Theorem geometry_under_motion (t a c b : Coordinate) (s : R) :
  get_distance (translate t a) (translate t b) = get_distance a b /\
  get_angle (translate t a) (translate t c) (translate t b) = get_angle a c b /\
  get_distance (scale s a) (scale s b) = Rabs s * get_distance a b /\
  (s <> 0 -> get_angle (scale s a) (scale s c) (scale s b) = get_angle a c b).
Proof.
  split; [|split; [|split]].
  - unfold get_distance. rewrite get_distance_vector_translate. reflexivity.
  - unfold get_angle. rewrite !get_distance_vector_translate. reflexivity.
  - unfold get_distance. rewrite get_distance_vector_scale. apply get_norm_scale.
  - intros Hs. unfold get_angle. cbv zeta.
    rewrite !get_distance_vector_scale, cross_scale, mul_sum_scale, get_norm_scale.
    rewrite Rabs_pos_eq by nra. apply arctan2_scale. nra.
Qed.

Lemma geometry_under_motion_witness :
  let a := mkCoordinate 1 0 0 in
  let c := mkCoordinate 0 0 0 in
  let b := mkCoordinate 0 1 0 in
  get_angle (scale 10 a) (scale 10 c) (scale 10 b) = get_angle a c b.
Proof.
  intros a c b. apply (geometry_under_motion c a c b 10). lra.
Defined.

(** For two arms of positive length the angle is the arc cosine of the dot
    product over the product of the lengths: the arctangent form returns the
    same angle as the textbook formula. *)
Theorem get_angle_arccos (a center b : Coordinate) :
  a <> center -> b <> center ->
  let v1 := get_distance_vector center a in
  let v2 := get_distance_vector center b in
  get_angle a center b = acos (mul_sum v1 v2 / (get_norm v1 * get_norm v2)).
Proof.
  intros Ha Hb v1 v2.
  assert (Hpos : forall p, p <> center -> 0 < get_norm (get_distance_vector center p)).
  { intros p Hp. destruct (get_norm_nonneg (get_distance_vector center p)) as [H | H];
      [assumption|].
    exfalso. apply Hp. symmetry in H. apply get_norm_zero_iff in H.
    destruct p as [px py pz], center as [qx qy qz]; simpl in H.
    destruct H as [Hx [Hy Hz]]. f_equal; lra. }
  pose proof (Hpos a Ha) as H1. pose proof (Hpos b Hb) as H2. fold v1 v2 in H1, H2.
  pose proof (arctan2_polar (get_norm (cross v1 v2)) (mul_sum v1 v2)) as [Hcos _].
  rewrite norm_cross_mul_sum in Hcos.
  pose proof (arctan2_upper_half (get_norm (cross v1 v2)) (mul_sum v1 v2)
                (get_norm_nonneg _)) as Hrange.
  unfold get_angle. fold v1 v2. cbv zeta.
  set (theta := arctan2 (get_norm (cross v1 v2)) (mul_sum v1 v2)) in *.
  replace (mul_sum v1 v2 / (get_norm v1 * get_norm v2)) with (cos theta)
    by (rewrite <- Hcos; field; lra).
  symmetry. apply acos_cos. exact Hrange.
Qed.

Lemma get_angle_arccos_witness :
  let a := mkCoordinate 1 0 0 in
  let c := mkCoordinate 0 0 0 in
  let b := mkCoordinate 0 1 0 in
  get_angle a c b
  = acos (mul_sum (get_distance_vector c a) (get_distance_vector c b)
          / (get_norm (get_distance_vector c a) * get_norm (get_distance_vector c b))).
Proof.
  intros a c b. apply (get_angle_arccos a c b).
  - intros Heq. apply (f_equal cx) in Heq. simpl in Heq. lra.
  - intros Heq. apply (f_equal cy) in Heq. simpl in Heq. lra.
Defined.

End AngleFacts.

(** ** Special configurations *)

Section Configurations.

Local Open Scope R_scope.

Lemma arctan2_zero (x : R) :
  (0 <= x -> arctan2 0 x = 0) /\ (x < 0 -> arctan2 0 x = PI).
Proof.
  unfold arctan2. split; intros Hx.
  - destruct (Rlt_dec 0 x).
    + replace (0 / x) with 0 by (field; lra). apply atan_0.
    + destruct (Rlt_dec x 0); [lra|].
      destruct (Rlt_dec 0 0); [lra|]. destruct (Rlt_dec 0 0); [lra | reflexivity].
  - destruct (Rlt_dec 0 x); [lra|]. destruct (Rlt_dec x 0); [|lra].
    destruct (Rle_dec 0 0); [|lra].
    replace (0 / x) with 0 by (field; lra). rewrite atan_0. ring.
Qed.

Lemma cross_parallel (u : Coordinate) (t : R) : get_norm (cross u (scale t u)) = 0.
Proof. apply get_norm_zero_iff. unfold cross, scale; simpl. repeat split; ring. Qed.

Lemma mul_sum_parallel (u : Coordinate) (t : R) :
  mul_sum u (scale t u) = t * (get_norm u * get_norm u).
Proof. rewrite get_norm_sq. unfold mul_sum, scale; simpl. ring. Qed.

Lemma arm_positive (center p : Coordinate) :
  p <> center -> 0 < get_norm (get_distance_vector center p).
Proof.
  intros Hp.
  destruct (get_norm_nonneg (get_distance_vector center p)) as [H | H];
    [assumption|].
  exfalso. apply Hp. symmetry in H. apply get_norm_zero_iff in H.
  destruct p as [px py pz], center as [qx qy qz]; simpl in H.
  destruct H as [Hx [Hy Hz]]. f_equal; lra.
Qed.

(** When an outer atom sits on the central atom the angle is [0], not an
    error.  When the second arm is a multiple [t] of the first, the angle is
    [0] if the arms point the same way and [pi] if they point opposite
    ways. *)
Theorem get_angle_collinear (a center b : Coordinate) (t : R) :
  get_angle center center b = 0 /\
  get_angle a center center = 0 /\
  (a <> center ->
   get_distance_vector center b = scale t (get_distance_vector center a) ->
   (0 < t -> get_angle a center b = 0) /\
   (t < 0 -> get_angle a center b = PI)).
Proof.
  split; [|split].
  - unfold get_angle. cbv zeta.
    replace (get_distance_vector center center) with (scale 0 (get_distance_vector center b))
      by (unfold scale, get_distance_vector; simpl; f_equal; ring).
    set (u := get_distance_vector center b).
    replace (get_norm (cross (scale 0 u) u)) with 0.
    + apply arctan2_zero. unfold mul_sum, scale; simpl. lra.
    + symmetry. apply get_norm_zero_iff. unfold cross, scale; simpl. repeat split; ring.
  - unfold get_angle. cbv zeta.
    replace (get_distance_vector center center) with (scale 0 (get_distance_vector center a))
      by (unfold scale, get_distance_vector; simpl; f_equal; ring).
    rewrite cross_parallel. apply arctan2_zero. rewrite mul_sum_parallel. lra.
  - intros Ha Hb. pose proof (arm_positive center a Ha) as Hpos.
    assert (Hsq : 0 < get_norm (get_distance_vector center a)
                      * get_norm (get_distance_vector center a)) by nra.
    unfold get_angle. cbv zeta. rewrite Hb, cross_parallel, mul_sum_parallel.
    split; intros Ht; apply arctan2_zero; nra.
Qed.

Lemma get_angle_collinear_witness :
  get_angle (mkCoordinate 1 0 0) (mkCoordinate 0 0 0) (mkCoordinate 2 0 0) = 0 /\
  get_angle (mkCoordinate 1 0 0) (mkCoordinate 0 0 0) (mkCoordinate (-2) 0 0) = PI.
Proof.
  split.
  - apply (get_angle_collinear (mkCoordinate 1 0 0) (mkCoordinate 0 0 0)
             (mkCoordinate 2 0 0) 2); try lra.
    + intros Heq. apply (f_equal cx) in Heq. simpl in Heq. lra.
    + unfold scale, get_distance_vector; simpl. f_equal; ring.
  - apply (get_angle_collinear (mkCoordinate 1 0 0) (mkCoordinate 0 0 0)
             (mkCoordinate (-2) 0 0) (-2)); try lra.
    + intros Heq. apply (f_equal cx) in Heq. simpl in Heq. lra.
    + unfold scale, get_distance_vector; simpl. f_equal; ring.
Defined.

(** For two arms of positive length the angle is a right angle exactly when
    the dot product of the arms is zero. *)
Theorem get_angle_perpendicular (a center b : Coordinate) :
  a <> center -> b <> center ->
  (get_angle a center b = PI / 2
   <-> mul_sum (get_distance_vector center a) (get_distance_vector center b) = 0).
Proof.
  intros Ha Hb.
  pose proof (arm_positive center a Ha) as H1.
  pose proof (arm_positive center b Hb) as H2.
  unfold get_angle. cbv zeta.
  set (v1 := get_distance_vector center a) in *.
  set (v2 := get_distance_vector center b) in *.
  pose proof (arctan2_polar (get_norm (cross v1 v2)) (mul_sum v1 v2)) as [Hcos _].
  pose proof (norm_cross_mul_sum v1 v2) as HL. rewrite HL in Hcos.
  split.
  - intros Hr. rewrite Hr, cos_PI2 in Hcos. lra.
  - intros Hd. rewrite Hd in *.
    assert (Hn : 0 < get_norm (cross v1 v2)).
    { destruct (get_norm_nonneg (cross v1 v2)) as [H | H]; [assumption|].
      exfalso. rewrite <- H in HL.
      replace (0 * 0 + 0 * 0) with 0 in HL by ring. rewrite sqrt_0 in HL. nra. }
    unfold arctan2. destruct (Rlt_dec 0 0); [lra|].
    destruct (Rlt_dec 0 0); [lra|].
    destruct (Rlt_dec 0 (get_norm (cross v1 v2))); [reflexivity | lra].
Qed.

Lemma get_angle_perpendicular_witness :
  get_angle (mkCoordinate 3 0 0) (mkCoordinate 0 0 0) (mkCoordinate 0 0 5) = PI / 2.
Proof.
  apply (get_angle_perpendicular (mkCoordinate 3 0 0) (mkCoordinate 0 0 0)
           (mkCoordinate 0 0 5)).
  - intros Heq. apply (f_equal cx) in Heq. simpl in Heq. lra.
  - intros Heq. apply (f_equal cz) in Heq. simpl in Heq. lra.
  - unfold mul_sum, get_distance_vector; simpl. ring.
Defined.

End Configurations.

(** ** Energies *)

Section EnergyFacts.

Local Open Scope R_scope.



Lemma get_norm_reverse (a b : Coordinate) :
  get_norm (get_distance_vector a b) = get_norm (get_distance_vector b a).
Proof. unfold get_distance_vector, get_norm; simpl. f_equal. ring. Qed.

(** With a positive force constant the bond energy of a conformer is never
    negative, and it is zero exactly when both bonds have the equilibrium
    length. *)
Theorem bond_energy_zero_iff (x0 x1 x2 : Coordinate) (k_r r0 : R) :
  0 < k_r ->
  exists e, bond_energy_computed [x0; x1; x2] k_r r0 = Ok e /\
            0 <= e /\
            (e = 0 <-> get_distance x0 x1 = r0 /\ get_distance x1 x2 = r0).
Proof.
  intros Hk. eexists; split; [reflexivity|].
  set (d1 := get_distance x0 x1). set (d2 := get_distance x1 x2).
  unfold harmonic.
  pose proof (pow2_ge_0 (d1 - r0)) as H1. pose proof (pow2_ge_0 (d2 - r0)) as H2.
  split; [nra|]. split.
  - intros He.
    assert (Hz1 : (d1 - r0) ^ 2 = 0) by nra.
    assert (Hz2 : (d2 - r0) ^ 2 = 0) by nra.
    simpl in Hz1, Hz2. split; nra.
  - intros [-> ->]. ring.
Qed.

Lemma bond_energy_zero_iff_witness :
  exists e,
    bond_energy_computed
      [mkCoordinate 1 0 0; mkCoordinate 0 0 0; mkCoordinate 0 1 0] 2 1 = Ok e /\
    0 <= e /\
    (e = 0 <-> get_distance (mkCoordinate 1 0 0) (mkCoordinate 0 0 0) = 1 /\
               get_distance (mkCoordinate 0 0 0) (mkCoordinate 0 1 0) = 1).
Proof.
  apply (bond_energy_zero_iff (mkCoordinate 1 0 0) (mkCoordinate 0 0 0)
           (mkCoordinate 0 1 0) 2 1).
  lra.
Defined.

(** Both energies are unchanged when the two outer atoms are exchanged and
    when the whole conformer is moved. *)
Theorem energies_invariant (conformer : list Coordinate) (x0 x1 x2 t : Coordinate)
  (k x_eq : R) :
  bond_energy_computed [x2; x1; x0] k x_eq = bond_energy_computed [x0; x1; x2] k x_eq /\
  angle_energy_computed [x2; x1; x0] k x_eq = angle_energy_computed [x0; x1; x2] k x_eq /\
  bond_energy_computed (map (translate t) conformer) k x_eq
  = bond_energy_computed conformer k x_eq /\
  angle_energy_computed (map (translate t) conformer) k x_eq
  = angle_energy_computed conformer k x_eq.
Proof.
  split; [|split; [|split]].
  - simpl. unfold get_distance.
    rewrite (get_norm_reverse x2 x1), (get_norm_reverse x1 x0).
    f_equal. ring.
  - simpl. unfold get_angle. cbv zeta.
    rewrite cross_swap_norm, mul_sum_comm. reflexivity.
  - destruct conformer as [|a [|b [|c [|d l]]]]; simpl; try reflexivity.
    unfold get_distance. rewrite !get_distance_vector_translate. reflexivity.
  - destruct conformer as [|a [|b [|c [|d l]]]]; simpl; try reflexivity.
    unfold get_angle. rewrite !get_distance_vector_translate. reflexivity.
Qed.

End EnergyFacts.
